(** * SiYuan kernel: boot sequencing, workspace resolution, session binding

    A shallow embedding of [kernel/util/working.go] and
    [kernel/util/session.go].  Package-level variables become fields of
    an explicit process state, [os.Exit] becomes an outcome of its own,
    and everything the code asks of the operating system (directories,
    the registry file, the advisory lock, the environment) is answered
    by an explicit world record. *)

From stdpp Require Import gmap strings list fin_maps.
From Stdlib Require Import ZArith Lia Ascii.

Local Open Scope Z_scope.

(** ** The Go runtime and the libraries the two files call *)

Module Go.

(** [int32]: a [Z] kept in range by wrapping after every addition. *)
Definition int32_min : Z := -2147483648.
Definition int32_max : Z := 2147483647.

Definition is_int32 (z : Z) : Prop := int32_min ≤ z ≤ int32_max.

Definition wrap32 (z : Z) : Z := (z + 2 ^ 31) `mod` 2 ^ 32 - 2 ^ 31.

(** [atomic.Int32.Add]: two's complement addition. *)
Definition add32 (a b : Z) : Z := wrap32 (a + b).

(** Errors are kept by kind; [os.IsExist] only asks for one of them. *)
Inductive error :=
| EEXIST | ENOENT | EACCES | ENOTDIR | EWOULDBLOCK
| ErrSyntax | ErrOther.

Definition IsExist (e : error) : bool :=
  match e with EEXIST => true | _ => false end.

(** [strconv.ParseBool]: the twelve accepted spellings; anything else
    (the empty string too) is [(false, ErrSyntax)]. *)
Definition ParseBool (str : string) : bool * option error :=
  if bool_decide (str ∈ ["1"; "t"; "T"; "TRUE"; "true"; "True"])
  then (true, None)
  else if bool_decide (str ∈ ["0"; "f"; "F"; "FALSE"; "false"; "False"])
  then (false, None)
  else (false, Some ErrSyntax).

(** [strings.TrimRight s cutset] for a cutset of ASCII characters:
    drop the longest suffix made of cutset characters. *)
Fixpoint TrimRight (s : string) (cutset : list ascii) : string :=
  match s with
  | EmptyString => EmptyString
  | String c s' =>
      match TrimRight s' cutset with
      | EmptyString =>
          if bool_decide (c ∈ cutset) then EmptyString
          else String c EmptyString
      | t => String c t
      end
  end.

(** [filepath.Join] on clean, slash-separated paths. *)
Definition Join (dir name : string) : string := dir +:+ "/" +:+ name.

(** The element after the last separator ([filepath.Base]). *)
Fixpoint Base (p : string) : string :=
  match p with
  | EmptyString => EmptyString
  | String c p' =>
      if bool_decide (c = "/"%char) then Base p'
      else if bool_decide ("/"%char ∈ String.list_ascii_of_string p')
           then Base p' else p
  end.

(** The proper ancestors of a path: every non-empty prefix that ends
    just before a separator.  [os.MkdirAll] creates them too. *)
Fixpoint ancestors_from (pre rest : string) : list string :=
  match rest with
  | EmptyString => []
  | String c rest' =>
      (if bool_decide (c = "/"%char ∧ pre ≠ EmptyString) then [pre] else [])
        ++ ancestors_from (pre +:+ String c EmptyString) rest'
  end.

Definition ancestors (p : string) : list string :=
  ancestors_from EmptyString p.

(** [p] itself or something below it: what [os.RemoveAll p] deletes. *)
Definition under (p q : string) : bool :=
  bool_decide (q = p) || String.prefix (p +:+ "/") q.

End Go.

(** Modelled from the spec: [gulu.Str.RemoveDuplicatedElem] of the
    [88250/gulu] library, which is not part of the repository; the spec
    has it "remove duplicates preserving first-seen order". *)
Fixpoint dedup_seen (seen l : list string) : list string :=
  match l with
  | [] => []
  | x :: l' =>
      if bool_decide (x ∈ seen) then dedup_seen seen l'
      else x :: dedup_seen (x :: seen) l'
  end.

Definition RemoveDuplicatedElem (slice : list string) : list string :=
  dedup_seen [] slice.

(** ** Boot progress (working.go, [bootProgress] and [bootDetails]) *)

Definition Ver : string := "3.1.11".

Record BootState := mkBoot {
  bootProgress : Z;       (* atomic.Int32 *)
  bootDetails  : string;  (* guarded by bootDetailsLock *)
}.

Definition boot0 : BootState := mkBoot 0 "".

Definition setBootDetails (details : string) (b : BootState) : BootState :=
  mkBoot (bootProgress b) ("v" +:+ Ver +:+ " " +:+ details).

(** [bootProgress.Load], [.Add] and [.Store]. *)
Definition Load (b : BootState) : Z := bootProgress b.

Definition Add (delta : Z) (b : BootState) : BootState :=
  mkBoot (Go.add32 (bootProgress b) delta) (bootDetails b).

Definition Store (v : Z) (b : BootState) : BootState :=
  mkBoot v (bootDetails b).

Definition SetBootDetails (details : string) (b : BootState) : BootState :=
  if bool_decide (100 ≤ Load b) then b
  else setBootDetails details b.

Definition IncBootProgress (progress : Z) (details : string)
    (b : BootState) : BootState :=
  if bool_decide (100 ≤ Load b) then b
  else setBootDetails details (Add progress b).

Definition IsBooted (b : BootState) : bool :=
  bool_decide (100 ≤ Load b).

Definition GetBootProgressDetails (b : BootState) : Z * string :=
  (Load b, bootDetails b).

Definition GetBootProgress (b : BootState) : Z := Load b.

Definition SetBooted (b : BootState) : BootState :=
  Store 100 (setBootDetails "Finishing boot..." b).

(** The calls that write the boot state, serialised: one call runs to
    its end before the next one starts. *)
Inductive BootCall :=
| CallInc (progress : Z) (details : string)
| CallSetDetails (details : string)
| CallSetBooted.

Definition boot_step (b : BootState) (c : BootCall) : BootState :=
  match c with
  | CallInc p d => IncBootProgress p d b
  | CallSetDetails d => SetBootDetails d b
  | CallSetBooted => SetBooted b
  end.

Definition boot_run (cs : list BootCall) (b : BootState) : BootState :=
  foldl boot_step b cs.

Definition sumZ (l : list Z) : Z := foldr Z.add 0 l.

(** A delta that cannot wrap the counter: below 100 there is room for
    it under [int32_max]. *)
Definition delta_ok (d : Z) : Prop := 0 < d ≤ Go.int32_max - 99.

Definition call_ok (c : BootCall) : Prop :=
  match c with
  | CallInc d _ => delta_ok d
  | _ => True
  end.

Definition is_SetBooted (c : BootCall) : bool :=
  match c with CallSetBooted => true | _ => false end.

(** The deltas that are added when [IncBootProgress] is called with
    [ds] in turn from progress [acc]: those up to and including the one
    that takes the sum to 100 or beyond. *)
Fixpoint counted (acc : Z) (ds : list Z) : list Z :=
  match ds with
  | [] => []
  | d :: ds' =>
      if bool_decide (100 ≤ acc) then []
      else d :: counted (acc + d) ds'
  end.

Definition inc_calls (ds : list (Z * string)) : list BootCall :=
  (λ c, CallInc c.1 c.2) <$> ds.

(** ** Sessions (session.go) *)

Definition NeedCaptcha (WrongAuthCount : Z) : bool :=
  bool_decide (3 < WrongAuthCount).

Module Session.

Record WorkspaceSession := mkWorkspaceSession {
  AccessAuthCode : string;
  Captcha        : string;
}.

(** A [*WorkspaceSession] is nil or the address of an allocated
    object; the objects live in a heap, so that two pointers to one
    object are told from two equal objects. *)
Abbreviation addr := positive (only parsing).
Abbreviation pointer := (option positive) (only parsing).

(** [Workspaces] is a Go map, which may be nil. *)
Record SessionData := mkSessionData {
  Workspaces : option (gmap string pointer);
}.

Record Mem := mkMem {
  objs : gmap addr WorkspaceSession;
  sess : SessionData;          (* what [session *SessionData] points to *)
}.

(** [&WorkspaceSession{}] *)
Definition new_WorkspaceSession (h : gmap addr WorkspaceSession)
    : addr * gmap addr WorkspaceSession :=
  let a := fresh (dom h) in (a, <[a := mkWorkspaceSession "" ""]> h).

(** [m[k]] on a possibly nil map of pointers: nil when absent. *)
Definition index (m : option (gmap string pointer)) (k : string) : pointer :=
  match m with
  | None => None
  | Some ws => default None (ws !! k)
  end.

(** The raw entry under a key: [None] when the key is not in the map. *)
Definition entry (s : SessionData) (k : string) : option pointer :=
  match Workspaces s with
  | None => None
  | Some ws => ws !! k
  end.

Definition GetWorkspaceSession (WorkspaceDir : string) (m : Mem)
    : pointer * Mem :=
  (* ret = &WorkspaceSession{} *)
  let '(_, h1) := new_WorkspaceSession (objs m) in
  (* if nil == session.Workspaces { session.Workspaces = map[...]{} } *)
  let ws := match Workspaces (sess m) with
            | None => ∅
            | Some ws => ws
            end in
  (* ret = session.Workspaces[WorkspaceDir] *)
  match index (Some ws) WorkspaceDir with
  | None =>
      let '(a, h2) := new_WorkspaceSession h1 in
      (Some a, mkMem h2 (mkSessionData (Some (<[WorkspaceDir := Some a]> ws))))
  | Some a => (Some a, mkMem h1 (mkSessionData (Some ws)))
  end.

(** [delete(session.Workspaces, WorkspaceDir)]; deleting from a nil
    map does nothing. *)
Definition RemoveWorkspaceSession (WorkspaceDir : string) (m : Mem) : Mem :=
  mkMem (objs m)
        (mkSessionData (delete WorkspaceDir <$> Workspaces (sess m))).

(** What a pointer points to. *)
Definition deref (m : Mem) (p : pointer) : option WorkspaceSession :=
  a ← p; objs m !! a.

End Session.

(** ** The world of working.go *)

(** [os.Exit] codes.  The two named ones are constants of the logging
    package; only that they differ matters here. *)
Inductive ExitCode :=
| ExitCode1
| ExitCodeInitWorkspaceErr
| ExitCodeWorkspaceLocked.

(** What the process does to the outside, in order. *)
Inductive Event :=
| LogInfof (format : string) (args : list string)
| LogWarnf (format : string) (args : list string)
| LogErrorf (format : string) (args : list string)
| Stdout (text : string)
| SysMkdirAll (path : string)
| SysRemoveAll (path : string)
| SysRemove (path : string)
| SysWriteFile (path : string)
| SysFlock (path : string)
| SysFunlock (path : string).

(** The registry file [workspace.json] as [ReadWorkspacePaths] meets
    it: unreadable, not the JSON of a string array (the decoder leaves
    [partial] in the slice it was filling), or a JSON array of strings. *)
Inductive ConfFile :=
| Unreadable
| Garbled (partial : list string)
| Registry (paths : list string).

(** What the operating system will answer; fixed for a run. *)
Record Oracle := mkOracle {
  HomeDir        : string;                (* gulu.OS.Home() *)
  Getwd          : string;                (* os.Getwd() *)
  IsWindows      : bool;                  (* gulu.OS.IsWindows() *)
  in_docker      : bool;                  (* isRunningInDockerContainer() *)
  mkdir_fails    : gmap string Go.error;  (* os.MkdirAll fails on these *)
  marshal_fails  : bool;                  (* gulu.JSON.MarshalJSON *)
  write_fails    : bool;                  (* filelock.WriteFile *)
  flock_fails    : gmap string Go.error;  (* opening or locking fails *)
  funlock_fails  : bool;                  (* releasing the lock fails *)
  remove_fails   : gmap string Go.error;  (* os.Remove fails on these *)
}.

(** The part of the file system and of the environment the code reads
    and writes. *)
Record FS := mkFS {
  dirs     : gset string;            (* paths that are directories *)
  files    : gset string;            (* regular files, the registry apart *)
  registry : option ConfFile;        (* workspace.json; None: no such file *)
  environ  : gmap string string;     (* os.Getenv / os.Setenv *)
  flocked  : gset string;            (* lock files some descriptor holds *)
}.

Definition set_dirs (f : gset string → gset string) (x : FS) : FS :=
  mkFS (f (dirs x)) (files x) (registry x) (environ x) (flocked x).
Definition set_files (f : gset string → gset string) (x : FS) : FS :=
  mkFS (dirs x) (f (files x)) (registry x) (environ x) (flocked x).
Definition set_registry (r : option ConfFile) (x : FS) : FS :=
  mkFS (dirs x) (files x) r (environ x) (flocked x).
Definition set_environ (f : gmap string string → gmap string string)
    (x : FS) : FS :=
  mkFS (dirs x) (files x) (registry x) (f (environ x)) (flocked x).
Definition set_flocked (f : gset string → gset string) (x : FS) : FS :=
  mkFS (dirs x) (files x) (registry x) (environ x) (f (flocked x)).

(** [flock.Flock]: the path and whether this handle holds the lock. *)
Record Flock := mkFlock {
  flock_path : string;
  flock_l    : bool;
}.

(** ** Package-level variables of working.go *)

Record EnvVars := mkEnvVars {
  RunInContainer             : bool;
  SiyuanAccessAuthCodeBypass : bool;
}.

Record Settings := mkSettings {
  WorkingDir       : string;
  Lang             : string;
  Mode             : string;
  ServerPort       : string;
  ReadOnly         : bool;
  AccessAuthCode   : string;
  Container        : string;
  ISMicrosoftStore : bool;
  SSL              : bool;
}.

Record Layout := mkLayout {
  WorkspaceDir       : string;
  WorkspaceName      : string;
  ConfDir            : string;
  DataDir            : string;
  RepoDir            : string;
  HistoryDir         : string;
  TempDir            : string;
  DBPath             : string;
  HistoryDBPath      : string;
  AssetContentDBPath : string;
  BlockTreeDBPath    : string;
  SnippetsPath       : string;
}.

Record Looks := mkLooks {
  LogPath        : string;
  AppearancePath : string;
  ThemesPath     : string;
  IconsPath      : string;
}.

Definition ContainerStd : string := "std".
Definition ContainerDocker : string := "docker".
Definition FixedPort : string := "6806".
Definition DBName : string := "siyuan.db".

(** The whole process: the world, and every variable the two files
    keep at package level. *)
Record St := mkSt {
  oracle        : Oracle;
  fs            : FS;
  trace         : list Event;
  boot          : BootState;
  envvars       : EnvVars;
  settings      : Settings;
  layout        : Layout;
  looks         : Looks;
  WorkspaceLock : option Flock;      (* *flock.Flock, nil at first *)
}.

Definition with_fs (f : FS → FS) (s : St) : St :=
  mkSt (oracle s) (f (fs s)) (trace s) (boot s) (envvars s) (settings s)
       (layout s) (looks s) (WorkspaceLock s).
Definition with_trace (f : list Event → list Event) (s : St) : St :=
  mkSt (oracle s) (fs s) (f (trace s)) (boot s) (envvars s) (settings s)
       (layout s) (looks s) (WorkspaceLock s).
Definition with_boot (f : BootState → BootState) (s : St) : St :=
  mkSt (oracle s) (fs s) (trace s) (f (boot s)) (envvars s) (settings s)
       (layout s) (looks s) (WorkspaceLock s).
Definition with_envvars (e : EnvVars) (s : St) : St :=
  mkSt (oracle s) (fs s) (trace s) (boot s) e (settings s)
       (layout s) (looks s) (WorkspaceLock s).
Definition with_settings (f : Settings → Settings) (s : St) : St :=
  mkSt (oracle s) (fs s) (trace s) (boot s) (envvars s) (f (settings s))
       (layout s) (looks s) (WorkspaceLock s).
Definition with_layout (l : Layout) (s : St) : St :=
  mkSt (oracle s) (fs s) (trace s) (boot s) (envvars s) (settings s)
       l (looks s) (WorkspaceLock s).
Definition with_looks (f : Looks → Looks) (s : St) : St :=
  mkSt (oracle s) (fs s) (trace s) (boot s) (envvars s) (settings s)
       (layout s) (f (looks s)) (WorkspaceLock s).
Definition with_lock (l : option Flock) (s : St) : St :=
  mkSt (oracle s) (fs s) (trace s) (boot s) (envvars s) (settings s)
       (layout s) (looks s) l.

(** The state as the variable declarations leave it, in a given world. *)
Definition init_St (o : Oracle) (x : FS) : St :=
  mkSt o x [] boot0
       (mkEnvVars false true)
       (mkSettings (Getwd o) "" "prod" "0" false "" "" false false)
       (mkLayout "" "" "" "" "" "" "" "" "" "" "" "")
       (mkLooks "" "" "" "")
       None.

(** ** A process either goes on or has called [os.Exit] *)

Inductive Outcome (A : Type) :=
| Ret (a : A) (s : St)
| Exit (code : ExitCode) (s : St).
Arguments Ret {A} a s.
Arguments Exit {A} code s.

Definition Proc (A : Type) : Type := St → Outcome A.

Definition final {A} (o : Outcome A) : St :=
  match o with Ret _ s => s | Exit _ s => s end.

Definition exited {A} (o : Outcome A) : option ExitCode :=
  match o with Ret _ _ => None | Exit c _ => Some c end.

#[global] Instance Proc_ret : MRet Proc := λ A a s, Ret a s.

#[global] Instance Proc_bind : MBind Proc := λ A B k m s,
  match m s with
  | Ret a s' => k a s'
  | Exit c s' => Exit c s'
  end.

Definition reads {A} (f : St → A) : Proc A := λ s, Ret (f s) s.
Definition writes (f : St → St) : Proc unit := λ s, Ret tt (f s).
Definition emit (e : Event) : Proc unit := writes (with_trace (λ t, t ++ [e])).
Definition os_Exit {A} (c : ExitCode) : Proc A := λ s, Exit c s.
Definition skip : Proc unit := mret tt.

(** ** Calls into the operating system and the libraries *)

Definition userHomeConfDir (o : Oracle) : string :=
  Go.Join (Go.Join (HomeDir o) ".config") "siyuan".

Definition workspaceConf (o : Oracle) : string :=
  Go.Join (userHomeConfDir o) "workspace.json".

(** [gulu.File.IsDir] *)
Definition IsDir (p : string) : Proc bool :=
  reads (λ s, bool_decide (p ∈ dirs (fs s))).

(** [gulu.File.IsExist]: a directory, a regular file, or the registry
    file at its own path. *)
Definition exists_at (p : string) (s : St) : bool :=
  bool_decide (p ∈ dirs (fs s))
  || bool_decide (p ∈ files (fs s))
  || (bool_decide (p = workspaceConf (oracle s))
      && bool_decide (is_Some (registry (fs s)))).

Definition IsExist (p : string) : Proc bool := reads (exists_at p).

(** [os.Getenv]: the empty string for an unset variable. *)
Definition Getenv (k : string) : Proc string :=
  reads (λ s, default "" (environ (fs s) !! k)).

Definition Setenv (k v : string) : Proc unit :=
  writes (with_fs (set_environ (insert k v))).

(** [os.MkdirAll]: the path and its ancestors become directories, or
    nothing changes and the error comes back. *)
Definition MkdirAll (p : string) : Proc (option Go.error) :=
  _ ← emit (SysMkdirAll p);
  r ← reads (λ s, mkdir_fails (oracle s) !! p);
  match r with
  | Some e => mret (Some e)
  | None =>
      _ ← writes (with_fs (set_dirs (λ d,
             d ∪ {[p]} ∪ list_to_set (Go.ancestors p))));
      mret None
  end.

(** [os.RemoveAll]: the path and all below it go; the code never looks
    at its result. *)
Definition RemoveAll (p : string) : Proc unit :=
  _ ← emit (SysRemoveAll p);
  writes (with_fs (λ x,
    set_files (filter (λ q, ¬ Go.under p q))
      (set_dirs (filter (λ q, ¬ Go.under p q)) x))).

(** [os.Remove] of a regular file. *)
Definition Remove (p : string) : Proc (option Go.error) :=
  _ ← emit (SysRemove p);
  r ← reads (λ s, remove_fails (oracle s) !! p);
  present ← reads (λ s, bool_decide (p ∈ files (fs s)));
  match r with
  | Some e => mret (Some e)
  | None =>
      if present : bool
      then _ ← writes (with_fs (set_files (λ f, f ∖ {[p]}))); mret None
      else mret (Some Go.ENOENT)
  end.

(** [flock.New] *)
Definition flock_New (p : string) : Flock := mkFlock p false.

(** [Flock.TryLock]: non-blocking; [(false, nil)] when some other
    descriptor holds the lock.  Opening the file creates it. *)
Definition TryLock (f : Flock) : Proc (bool * option Go.error * Flock) :=
  if flock_l f then mret (true, None, f)
  else
    _ ← emit (SysFlock (flock_path f));
    r ← reads (λ s, flock_fails (oracle s) !! flock_path f);
    held ← reads (λ s, bool_decide (flock_path f ∈ flocked (fs s)));
    match r with
    | Some e => mret (false, Some e, f)
    | None =>
        _ ← writes (with_fs (set_files (λ x, x ∪ {[flock_path f]})));
        if held : bool then mret (false, None, f)
        else
          _ ← writes (with_fs (set_flocked (λ x, x ∪ {[flock_path f]})));
          mret (true, None, mkFlock (flock_path f) true)
    end.

(** [Flock.Unlock]: nothing to do for a handle that holds no lock. *)
Definition Unlock (f : Flock) : Proc (option Go.error * Flock) :=
  if negb (flock_l f) then mret (None, f)
  else
    _ ← emit (SysFunlock (flock_path f));
    bad ← reads (λ s, funlock_fails (oracle s));
    if bad : bool then mret (Some Go.ErrOther, f)
    else
      _ ← writes (with_fs (set_flocked (λ x, x ∖ {[flock_path f]})));
      mret (None, mkFlock (flock_path f) false).

(** [os.ReadFile(workspaceConf)]: the content of the file, or an error. *)
Definition ReadFile_conf : Proc (option ConfFile * option Go.error) :=
  r ← reads (λ s, registry (fs s));
  mret match r with
       | None => (None, Some Go.ENOENT)
       | Some Unreadable => (None, Some Go.EACCES)
       | Some c => (Some c, None)
       end.

(** [gulu.JSON.UnmarshalJSON(data, &ret)]: the decoded array, or an
    error and whatever the decoder left in [ret]. *)
Definition UnmarshalJSON (data : option ConfFile) (ret : list string)
    : list string * option Go.error :=
  match data with
  | Some (Registry paths) => (paths, None)
  | Some (Garbled partial) => (partial, Some Go.ErrSyntax)
  | _ => (ret, Some Go.ErrSyntax)
  end.

(** [gulu.JSON.MarshalJSON] followed by [filelock.WriteFile]: the file
    is replaced as a whole or not at all. *)
Definition MarshalJSON (l : list string) : Proc (option Go.error) :=
  bad ← reads (λ s, marshal_fails (oracle s));
  mret (if bad : bool then Some Go.ErrOther else None).

Definition WriteFile (conf : string) (l : list string) : Proc (option Go.error) :=
  _ ← emit (SysWriteFile conf);
  bad ← reads (λ s, write_fails (oracle s));
  if bad : bool then mret (Some Go.EACCES)
  else _ ← writes (with_fs (set_registry (Some (Registry l)))); mret None.

(** ** working.go *)

Definition initEnvVars : Proc unit :=
  docker ← reads (λ s, in_docker (oracle s));
  v ← Getenv "SIYUAN_ACCESS_AUTH_CODE_BYPASS";
  let '(b, err) := Go.ParseBool v in
  writes (with_envvars
            (mkEnvVars docker (if err is Some _ then true else b))).

Definition ReadWorkspacePaths : Proc (list string * option Go.error) :=
  let ret := [] in
  conf ← reads (λ s, workspaceConf (oracle s));
  '(data, err) ← ReadFile_conf;
  match err with
  | Some e =>
      _ ← emit (LogErrorf "read workspace conf [%s] failed: %s" [conf]);
      mret (ret, Some e)
  | None =>
      let '(ret, err) := UnmarshalJSON data ret in
      match err with
      | Some e =>
          _ ← emit (LogErrorf "unmarshal workspace conf [%s] failed: %s" [conf]);
          mret (ret, Some e)
      | None =>
          d ← reads (λ s, dirs (fs s));
          let tmp := filter (λ p, p ∈ d)
                       ((λ p, Go.TrimRight p [" "; "009"; "010"]%char) <$> ret) in
          mret (RemoveDuplicatedElem tmp, None)
      end
  end.

Definition WriteWorkspacePaths (workspacePaths : list string)
    : Proc (option Go.error) :=
  let workspacePaths := RemoveDuplicatedElem workspacePaths in
  conf ← reads (λ s, workspaceConf (oracle s));
  err ← MarshalJSON workspacePaths;
  match err with
  | Some e =>
      _ ← emit (LogErrorf "marshal workspace conf [%s] failed: %s" [conf]);
      mret (Some e)
  | None =>
      err ← WriteFile conf workspacePaths;
      match err with
      | Some e =>
          _ ← emit (LogErrorf "write workspace conf [%s] failed: %s" [conf]);
          mret (Some e)
      | None => mret None
      end
  end.

Definition set_WorkspaceDir (d : string) : Proc unit :=
  writes (λ s, with_layout
    (let l := layout s in
     mkLayout d (WorkspaceName l) (ConfDir l) (DataDir l) (RepoDir l)
              (HistoryDir l) (TempDir l) (DBPath l) (HistoryDBPath l)
              (AssetContentDBPath l) (BlockTreeDBPath l) (SnippetsPath l)) s).

(** [if err := os.MkdirAll(p, 0755); err != nil && !os.IsExist(err)]
    followed by [LogErrorf] and [os.Exit(ExitCodeInitWorkspaceErr)]. *)
Definition mkdir_or_exit (p format : string) (args : list string) : Proc unit :=
  err ← MkdirAll p;
  match err with
  | Some e =>
      if negb (Go.IsExist e)
      then _ ← emit (LogErrorf format args); os_Exit ExitCodeInitWorkspaceErr
      else skip
  | None => skip
  end.

(** initWorkspaceDir, lines 240-249: the folder of the registry file. *)
Definition ensureUserHomeConfDir : Proc unit :=
  confDir ← reads (λ s, userHomeConfDir (oracle s));
  conf ← reads (λ s, workspaceConf (oracle s));
  found ← IsExist conf;
  if negb found
  then mkdir_or_exit confDir
         "create user home conf folder [%s] failed: %s" [confDir]
  else skip.

(** initWorkspaceDir, lines 251-257. *)
Definition defaultWorkspaceDir : Proc string :=
  home ← reads (λ s, HomeDir (oracle s));
  win ← reads (λ s, IsWindows (oracle s));
  if win : bool
  then
    userProfile ← Getenv "USERPROFILE";
    if bool_decide (userProfile ≠ "")
    then mret (Go.Join userProfile "SiYuan")
    else mret (Go.Join home "SiYuan")
  else mret (Go.Join home "SiYuan").

(** initWorkspaceDir, lines 259-283: choose [WorkspaceDir]; the result
    is [workspacePaths] after the append. *)
Definition selectWorkspaceDir (workspaceArg dflt : string)
    : Proc (list string) :=
  conf ← reads (λ s, workspaceConf (oracle s));
  found ← IsExist conf;
  workspacePaths ←
    (if negb found
     then _ ← set_WorkspaceDir dflt; mret []
     else
       '(workspacePaths, _) ← ReadWorkspacePaths;
       _ ← set_WorkspaceDir (default dflt (last workspacePaths));
       mret workspacePaths);
  _ ← (if bool_decide (workspaceArg ≠ "")
       then set_WorkspaceDir workspaceArg else skip);
  dir ← reads (λ s, WorkspaceDir (layout s));
  isdir ← IsDir dir;
  _ ← (if negb isdir
       then
         _ ← emit (LogWarnf
               "use the default workspace [%s] since the specified workspace [%s] is not a dir"
               [dflt; dir]);
         _ ← mkdir_or_exit dflt
               "create default workspace folder [%s] failed: %s" [dflt];
         set_WorkspaceDir dflt
       else skip);
  dir ← reads (λ s, WorkspaceDir (layout s));
  mret (workspacePaths ++ [dir]).

(** initWorkspaceDir, lines 285-288. *)
Definition persistWorkspacePaths (workspacePaths : list string) : Proc unit :=
  conf ← reads (λ s, workspaceConf (oracle s));
  err ← WriteWorkspacePaths workspacePaths;
  match err with
  | Some _ =>
      _ ← emit (LogErrorf "write workspace conf [%s] failed: %s" [conf]);
      os_Exit ExitCodeInitWorkspaceErr
  | None => skip
  end.

(** initWorkspaceDir, lines 290-310: the directory tree of the run. *)
Definition deriveLayout : Proc unit :=
  dir ← reads (λ s, WorkspaceDir (layout s));
  let temp := Go.Join dir "temp" in
  let data := Go.Join dir "data" in
  _ ← writes (λ s, with_layout
        (let l := layout s in
         mkLayout dir (Go.Base dir) (Go.Join dir "conf") data
           (Go.Join dir "repo") (Go.Join dir "history") temp
           (DBPath l) (HistoryDBPath l) (AssetContentDBPath l)
           (BlockTreeDBPath l) (SnippetsPath l)) s);
  let osTmpDir := Go.Join temp "os" in
  _ ← RemoveAll osTmpDir;
  err ← MkdirAll osTmpDir;
  _ ← match err with
      | Some _ =>
          _ ← emit (LogErrorf "create os tmp dir [%s] failed: %s" [osTmpDir]);
          os_Exit ExitCodeInitWorkspaceErr
      | None => skip
      end;
  _ ← RemoveAll (Go.Join temp "repo");
  _ ← Setenv "TMPDIR" osTmpDir;
  _ ← Setenv "TEMP" osTmpDir;
  _ ← Setenv "TMP" osTmpDir;
  writes (with_layout
    (mkLayout dir (Go.Base dir) (Go.Join dir "conf") data
       (Go.Join dir "repo") (Go.Join dir "history") temp
       (Go.Join temp DBName) (Go.Join temp "history.db")
       (Go.Join temp "asset_content.db") (Go.Join temp "blocktree.db")
       (Go.Join data "snippets"))).

Definition initWorkspaceDir (workspaceArg : string) : Proc unit :=
  _ ← ensureUserHomeConfDir;
  dflt ← defaultWorkspaceDir;
  workspacePaths ← selectWorkspaceDir workspaceArg dflt;
  _ ← persistWorkspacePaths workspacePaths;
  deriveLayout.

(** [logging.LogFatalf(code, ...)]: log, then exit with the code. *)
Definition LogFatalf {A} (code : ExitCode) (format : string)
    (args : list string) : Proc A :=
  _ ← emit (LogErrorf format args); os_Exit code.

Definition mkdir_or_fatal (p format : string) (args : list string) : Proc unit :=
  err ← MkdirAll p;
  match err with
  | Some e =>
      if negb (Go.IsExist e)
      then LogFatalf ExitCodeInitWorkspaceErr format args
      else skip
  | None => skip
  end.

(** The six folders under a data folder, with the arguments the
    messages are given in the source. *)
Definition mkdir_data_children (data : string) : Proc unit :=
  let assets := Go.Join data "assets" in
  let templates := Go.Join data "templates" in
  let widgets := Go.Join data "widgets" in
  _ ← mkdir_or_fatal assets "create data assets folder [%s] failed: %s" [assets];
  _ ← mkdir_or_fatal templates
        "create data templates folder [%s] failed: %s" [templates];
  _ ← mkdir_or_fatal widgets "create data widgets folder [%s] failed: %s" [widgets];
  _ ← mkdir_or_fatal (Go.Join data "plugins")
        "create data plugins folder [%s] failed: %s" [widgets];
  _ ← mkdir_or_fatal (Go.Join data "emojis")
        "create data emojis folder [%s] failed: %s" [widgets];
  mkdir_or_fatal (Go.Join data "public")
    "create data public folder [%s] failed: %s" [widgets].

Definition initPathDir : Proc unit :=
  l ← reads layout;
  _ ← mkdir_or_fatal (ConfDir l) "create conf folder [%s] failed: %s" [ConfDir l];
  _ ← mkdir_or_fatal (DataDir l) "create data folder [%s] failed: %s" [DataDir l];
  _ ← mkdir_or_fatal (TempDir l) "create temp folder [%s] failed: %s" [TempDir l];
  mkdir_data_children (DataDir l).

Definition InitPathDirByUser (userNo : string) : Proc unit :=
  if bool_decide (userNo = "") then skip
  else
    l ← reads layout;
    _ ← mkdir_or_fatal (DataDir l +:+ userNo)
          "create data folder [%s] failed: %s" [DataDir l];
    mkdir_data_children (DataDir l +:+ userNo).

Definition tryLockWorkspace : Proc unit :=
  dir ← reads (λ s, WorkspaceDir (layout s));
  let f := flock_New (Go.Join dir ".lock") in
  _ ← writes (with_lock (Some f));
  '(ok, err, f') ← TryLock f;
  _ ← writes (with_lock (Some f'));
  if ok : bool then skip
  else
    _ ← emit (match err with
              | Some _ => LogErrorf "lock workspace [%s] failed: %s" [dir]
              | None => LogErrorf "lock workspace [%s] failed" [dir]
              end);
    os_Exit ExitCodeWorkspaceLocked.

Definition IsWorkspaceLocked (workspacePath : string) : Proc bool :=
  isdir ← IsDir workspacePath;
  if negb isdir then mret false
  else
    let lockFilePath := Go.Join workspacePath ".lock" in
    found ← IsExist lockFilePath;
    if negb found then mret false
    else
      let f := flock_New lockFilePath in
      '(ok, _, f') ← TryLock f;
      (* defer f.Unlock() *)
      _ ← Unlock f';
      mret (negb ok).

Definition UnlockWorkspace : Proc unit :=
  lock ← reads WorkspaceLock;
  match lock with
  | None => skip
  | Some f =>
      dir ← reads (λ s, WorkspaceDir (layout s));
      '(err, f') ← Unlock f;
      _ ← writes (with_lock (Some f'));
      match err with
      | Some _ =>
          emit (LogErrorf "unlock workspace [%s] failed: %s" [dir])
      | None =>
          err ← Remove (Go.Join dir ".lock");
          match err with
          | Some _ => emit (LogErrorf "remove workspace lock failed: %s" [])
          | None => skip
          end
      end
  end.

(** The command line as [flag.Parse] leaves it: a flag that was not
    given has its default. *)
Record Args := mkArgs {
  arg_workspace      : option string;
  arg_wd             : option string;
  arg_port           : option string;
  arg_readonly       : option string;
  arg_accessAuthCode : option string;
  arg_ssl            : option bool;
  arg_lang           : option string;
  arg_mode           : option string;
}.

Definition no_args : Args :=
  mkArgs None None None None None None None None.

(** Boot, lines 108-126: the access authorization gate. *)
Definition checkAccessAuthCode : Proc unit :=
  inContainer ← reads (λ s, RunInContainer (envvars s));
  if inContainer : bool
  then
    _ ← writes (with_settings (λ c,
          mkSettings (WorkingDir c) (Lang c) (Mode c) (ServerPort c)
            (ReadOnly c) (AccessAuthCode c) ContainerDocker
            (ISMicrosoftStore c) (SSL c)));
    code ← reads (λ s, AccessAuthCode (settings s));
    _ ← emit (LogInfof "启动初始化，读取配置AccessAuthCode： %s" [code]);
    if bool_decide (code = "")
    then
      let interruptBoot := true in
      bypass ← reads (λ s, SiyuanAccessAuthCodeBypass (envvars s));
      interruptBoot ←
        (if bypass : bool
         then
           _ ← emit (Stdout
                 "bypass access auth code check since the env [SIYUAN_ACCESS_AUTH_CODE_BYPASS] is set to [true]");
           mret false
         else mret interruptBoot);
      if interruptBoot : bool
      then
        _ ← emit (Stdout
              "the access authorization code command line parameter (--accessAuthCode) must be set when deploying via Docker");
        os_Exit ExitCode1
      else skip
    else skip
  else skip.

(** [Boot].  Seeding the random source, the MIME table, the HTTP
    client and its user agent, and the banner touch nothing that is
    modelled and are left out. *)
Definition Boot (args : Args) : Proc unit :=
  _ ← initEnvVars;
  _ ← writes (with_boot (IncBootProgress 3 "Booting kernel..."));
  wd0 ← reads (λ s, WorkingDir (settings s));
  let workspacePath := default "" (arg_workspace args) in
  let wdPath := default wd0 (arg_wd args) in
  let port := default "0" (arg_port args) in
  let readOnly := default "false" (arg_readonly args) in
  let accessAuthCode := default "" (arg_accessAuthCode args) in
  let ssl := default false (arg_ssl args) in
  let lang := default "zh_CN" (arg_lang args) in
  let mode := default "prod" (arg_mode args) in
  _ ← writes (with_settings (λ c,
        mkSettings (if bool_decide (wdPath ≠ "") then wdPath else WorkingDir c)
                   (if bool_decide (lang ≠ "") then lang else Lang c)
                   mode port (Go.ParseBool readOnly).1 accessAuthCode
                   ContainerStd (ISMicrosoftStore c) (SSL c)));
  _ ← checkAccessAuthCode;
  _ ← writes (with_settings (λ c,
        mkSettings (WorkingDir c) (Lang c) (Mode c)
                   (if bool_decide (Container c ≠ ContainerStd)
                    then FixedPort else ServerPort c)
                   (ReadOnly c) (AccessAuthCode c) (Container c)
                   (ISMicrosoftStore c) (SSL c)));
  wd ← reads (λ s, WorkingDir (settings s));
  ms ← IsExist (Go.Join wd "ms-store");
  _ ← writes (with_settings (λ c,
        mkSettings (WorkingDir c) (Lang c) (Mode c) (ServerPort c)
                   (ReadOnly c) (AccessAuthCode c) (Container c) ms (SSL c)));
  _ ← initWorkspaceDir workspacePath;
  _ ← writes (with_settings (λ c,
        mkSettings (WorkingDir c) (Lang c) (Mode c) (ServerPort c)
                   (ReadOnly c) (AccessAuthCode c) (Container c)
                   (ISMicrosoftStore c) ssl));
  temp ← reads (λ s, TempDir (layout s));
  _ ← writes (with_looks (λ k,
        mkLooks (Go.Join temp "siyuan.log") (AppearancePath k)
                (ThemesPath k) (IconsPath k)));
  _ ← tryLockWorkspace;
  conf ← reads (λ s, ConfDir (layout s));
  mode' ← reads (λ s, Mode (settings s));
  let appearance := Go.Join conf "appearance" in
  _ ← writes (with_looks (λ k,
        if bool_decide (mode' = "dev")
        then mkLooks (LogPath k) appearance
               (Go.Join (Go.Join wd "appearance") "themes")
               (Go.Join (Go.Join wd "appearance") "icons")
        else mkLooks (LogPath k) appearance
               (Go.Join appearance "themes") (Go.Join appearance "icons")));
  initPathDir.

(** ** Some concrete worlds *)


(** The same in a Docker container. *)
Definition docker : Oracle :=
  mkOracle "/home/u" "/opt/siyuan" false true ∅ false false ∅ false ∅.

(** A desktop where the registry file cannot be written. *)
Definition desktop_readonly_conf : Oracle :=
  mkOracle "/home/u" "/opt/siyuan" false false ∅ false true ∅ false ∅.

(** A desktop where releasing the workspace lock fails. *)
Definition desktop_stuck_lock : Oracle :=
  mkOracle "/home/u" "/opt/siyuan" false false ∅ false false ∅ true ∅.

(** A fresh home directory: no registry, no workspace. *)
Definition fresh_home : FS := mkFS {["/home/u"]} ∅ None ∅ ∅.

(** A home with workspaces [/ws/A] and [/ws/B] on disk and a registry
    that lists the given paths. *)
Definition home_with (paths : list string) : FS :=
  mkFS {["/home/u"; "/home/u/.config"; "/home/u/.config/siyuan";
         "/ws"; "/ws/A"; "/ws/B"]}
       ∅ (Some (Registry paths)) ∅ ∅.

(** ** Reading the outcome of a process *)

(** [wp m Q E s]: run from [s], [m] either returns with [Q] or exits
    with [E]. *)
Definition wp {A} (m : Proc A) (Q : A → St → Prop)
    (E : ExitCode → St → Prop) (s : St) : Prop :=
  match m s with
  | Ret a s' => Q a s'
  | Exit c s' => E c s'
  end.

(** What workspace resolution leaves alone until it persists. *)
Definition frame (s s' : St) : Prop :=
  oracle s' = oracle s
  ∧ registry (fs s') = registry (fs s)
  ∧ environ (fs s') = environ (fs s).


(** The platform default, the registry as the resolver loads it, and
    the directories there are when the resolver checks its target. *)
Definition default_dir (s : St) : string :=
  match defaultWorkspaceDir s with
  | Ret d _ => d
  | Exit _ _ => ""
  end.

Definition remembered (s : St) : list string :=
  match ReadWorkspacePaths s with
  | Ret r _ => r.1
  | Exit _ _ => []
  end.

Definition dirs_at_selection (s : St) : gset string :=
  dirs (fs (final (ensureUserHomeConfDir s))).

(** The resolution order in the words of the spec: an explicit
    override wins; otherwise the most recently used entry of a
    non-empty registry; otherwise the default.  A target that is not a
    directory gives way to the default. *)
Definition resolve_target (override dflt : string) (known : list string)
    : string :=
  if bool_decide (override ≠ "") then override
  else match last known with
       | Some mru => mru
       | None => dflt
       end.

Definition resolve_selected (target dflt : string) (d : gset string) : string :=
  if bool_decide (target ∈ d) then target else dflt.

(** * Theorems *)

(** ** Boot progress *)

Section BootProgress.

Lemma wrap32_id (z : Z) : Go.is_int32 z → Go.wrap32 z = z.
Proof.
  unfold Go.is_int32, Go.int32_min, Go.int32_max, Go.wrap32. intros H.
  rewrite Z.mod_small; lia.
Qed.

Lemma Inc_below (d : Z) (details : string) (b : BootState) :
  Go.is_int32 (bootProgress b) → delta_ok d → bootProgress b < 100 →
  bootProgress (IncBootProgress d details b) = bootProgress b + d.
Proof.
  unfold IncBootProgress, Load, Go.is_int32, delta_ok, Go.int32_min, Go.int32_max.
  intros Hr Hd Hlt. rewrite bool_decide_eq_false_2 by lia.
  cbn. unfold Go.add32. apply wrap32_id.
  unfold Go.is_int32, Go.int32_min, Go.int32_max. lia.
Qed.

Lemma Inc_booted (d : Z) (details : string) (b : BootState) :
  100 ≤ bootProgress b → IncBootProgress d details b = b.
Proof.
  unfold IncBootProgress, Load. intros H. by rewrite bool_decide_eq_true_2.
Qed.

Lemma SetBootDetails_progress (details : string) (b : BootState) :
  bootProgress (SetBootDetails details b) = bootProgress b.
Proof. unfold SetBootDetails. by case_bool_decide. Qed.

Lemma boot_step_int32 (b : BootState) (c : BootCall) :
  Go.is_int32 (bootProgress b) → call_ok c →
  Go.is_int32 (bootProgress (boot_step b c)).
Proof.
  intros Hr Hc. destruct c as [d details|details|]; cbn.
  - destruct (decide (100 ≤ bootProgress b)) as [H|H].
    + by rewrite Inc_booted.
    + rewrite Inc_below by (done || lia).
      cbn in Hc. revert Hr Hc.
      unfold Go.is_int32, delta_ok, Go.int32_min, Go.int32_max. lia.
  - by rewrite SetBootDetails_progress.
  - unfold Go.is_int32, Go.int32_min, Go.int32_max. lia.
Qed.

Lemma boot_run_int32 (cs : list BootCall) (b : BootState) :
  Go.is_int32 (bootProgress b) → Forall call_ok cs →
  Go.is_int32 (bootProgress (boot_run cs b)).
Proof.
  revert b. induction cs as [|c cs IH]; intros b Hr Hok; [done|].
  apply Forall_cons in Hok as [Hc Hok]. cbn.
  apply IH; [by apply boot_step_int32 | done].
Qed.

Lemma boot_run_snoc (cs : list BootCall) (c : BootCall) (b : BootState) :
  boot_run (cs ++ [c]) b = boot_step (boot_run cs b) c.
Proof. unfold boot_run. by rewrite foldl_app. Qed.

Lemma boot_step_not_lower (b : BootState) (c : BootCall) :
  Go.is_int32 (bootProgress b) → call_ok c → is_SetBooted c = false →
  bootProgress b ≤ bootProgress (boot_step b c)
  ∧ (100 ≤ bootProgress b → boot_step b c = b).
Proof.
  intros Hr Hc Hn. destruct c as [d details|details|]; [| |done]; cbn.
  - split; [|apply Inc_booted].
    destruct (decide (100 ≤ bootProgress b)) as [H|H].
    + by rewrite Inc_booted.
    + rewrite Inc_below by (done || lia). cbn in Hc. unfold delta_ok in Hc. lia.
  - split; [by rewrite SetBootDetails_progress|].
    unfold SetBootDetails, Load. intros H. by rewrite bool_decide_eq_true_2.
Qed.

(** C3 fails as stated: two increments take the progress from 99 to
    104, past 100, and [SetBooted] then stores 100, which lowers it. *)
Lemma SetBooted_lowers_overshot_progress :
  bootProgress (boot_run [CallInc 99 "a"; CallInc 5 "b"] boot0) = 104
  ∧ bootProgress
      (boot_run [CallInc 99 "a"; CallInc 5 "b"; CallSetBooted] boot0) = 100.
Proof. split; reflexivity. Qed.

(** C3, amended.  In every sequence of serialised calls from the
    initial state whose deltas are positive and at most [2^31 - 100],
    a call of [IncBootProgress] or [SetBootDetails] never lowers the
    stored progress and changes nothing once the progress is at least
    100, and a call of [SetBooted] leaves the progress at exactly 100;
    the progress is always a non-negative [int32]. *)
Theorem boot_progress_never_lowered_before_SetBooted
    (cs : list BootCall) (c : BootCall) :
  Forall call_ok (cs ++ [c]) →
  let b := boot_run cs boot0 in
  let b' := boot_run (cs ++ [c]) boot0 in
  (is_SetBooted c = false →
     bootProgress b ≤ bootProgress b' ∧ (100 ≤ bootProgress b → b' = b))
  ∧ (is_SetBooted c = true → bootProgress b' = 100)
  ∧ Go.is_int32 (bootProgress b').
Proof.
  intros Hok b b'. subst b b'. rewrite boot_run_snoc.
  apply Forall_app in Hok as [Hcs Hc]. apply Forall_inv in Hc.
  assert (Hr : Go.is_int32 (bootProgress (boot_run cs boot0))).
  { apply boot_run_int32; [|done].
    unfold Go.is_int32, Go.int32_min, Go.int32_max. cbn. lia. }
  split; [|split].
  - intros Hn. by apply boot_step_not_lower.
  - intros Hn. destruct c; try discriminate Hn. reflexivity.
  - by apply boot_step_int32.
Qed.

Lemma boot_progress_never_lowered_witness :
  Forall call_ok ([CallInc 60 "a"; CallSetDetails "b"] ++ [CallInc 60 "c"])
  ∧ bootProgress (boot_run [CallInc 60 "a"; CallSetDetails "b"] boot0)
    ≤ bootProgress
        (boot_run ([CallInc 60 "a"; CallSetDetails "b"] ++ [CallInc 60 "c"]) boot0).
Proof.
  assert (H : Forall call_ok
                ([CallInc 60 "a"; CallSetDetails "b"] ++ [CallInc 60 "c"])).
  { repeat constructor; cbn; unfold delta_ok, Go.int32_max; lia. }
  split; [exact H|].
  exact (proj1 (proj1 (boot_progress_never_lowered_before_SetBooted
                         [CallInc 60 "a"; CallSetDetails "b"]
                         (CallInc 60 "c") H) eq_refl)).
Defined.

Lemma counted_booted (acc : Z) (ds : list Z) :
  100 ≤ acc → counted acc ds = [].
Proof. intros H. destruct ds; [done|]. cbn. by rewrite bool_decide_eq_true_2. Qed.

Lemma inc_run_counted (ds : list (Z * string)) :
  ∀ b, 0 ≤ bootProgress b → Go.is_int32 (bootProgress b) →
       Forall (λ c, delta_ok c.1) ds →
       bootProgress (boot_run (inc_calls ds) b)
       = bootProgress b + sumZ (counted (bootProgress b) ds.*1).
Proof.
  induction ds as [|[d details] ds IH]; intros b H0 Hr Hok.
  { cbn. lia. }
  apply Forall_cons in Hok as [Hd Hok]. cbn in Hd.
  change (boot_run (inc_calls ((d, details) :: ds)) b)
    with (boot_run (inc_calls ds) (IncBootProgress d details b)).
  change (((d, details) :: ds).*1) with (d :: ds.*1). cbn [counted].
  destruct (decide (100 ≤ bootProgress b)) as [H|H].
  - rewrite Inc_booted by done. rewrite bool_decide_eq_true_2 by done.
    rewrite IH by done. by rewrite counted_booted.
  - rewrite bool_decide_eq_false_2 by done.
    assert (He : bootProgress (IncBootProgress d details b) = bootProgress b + d)
      by (apply Inc_below; [done|done|lia]).
    rewrite IH; [| | |done].
    + rewrite He. unfold sumZ. cbn [foldr]. lia.
    + rewrite He. unfold delta_ok in Hd. lia.
    + rewrite He. revert Hr Hd.
      unfold Go.is_int32, delta_ok, Go.int32_min, Go.int32_max. lia.
Qed.

Lemma sumZ_nonneg (ds : list Z) : Forall delta_ok ds → 0 ≤ sumZ ds.
Proof.
  induction 1 as [|x l Hx _ IHl]; unfold sumZ in *; cbn [foldr]; [lia|].
  unfold delta_ok in Hx. lia.
Qed.

Lemma counted_bounds (ds : list Z) :
  ∀ acc, Forall delta_ok ds → 100 ≤ acc + sumZ ds →
         100 ≤ acc + sumZ (counted acc ds)
         ∧ sumZ (counted acc ds) ≤ sumZ ds.
Proof.
  induction ds as [|d ds IH]; intros acc Hok Hs.
  { cbn in *. lia. }
  apply Forall_cons in Hok as [Hd Hok].
  change (sumZ (d :: ds)) with (d + sumZ ds) in *.
  cbn [counted]. case_bool_decide as H.
  - pose proof (sumZ_nonneg ds Hok). unfold delta_ok in Hd. cbn. lia.
  - change (sumZ (d :: counted (acc + d) ds))
      with (d + sumZ (counted (acc + d) ds)).
    destruct (IH (acc + d) Hok) as [H1 H2]; lia.
Qed.

Lemma counted_all (ds : list Z) :
  ∀ acc, Forall delta_ok ds → acc + sumZ (removelast ds) < 100 →
         counted acc ds = ds.
Proof.
  induction ds as [|d ds IH]; intros acc Hok Hs; [done|].
  apply Forall_cons in Hok as [Hd Hok].
  cbn [counted]. destruct ds as [|d' ds].
  - cbn in Hs. rewrite bool_decide_eq_false_2 by lia. done.
  - change (removelast (d :: d' :: ds)) with (d :: removelast (d' :: ds)) in Hs.
    change (sumZ (d :: removelast (d' :: ds)))
      with (d + sumZ (removelast (d' :: ds))) in Hs.
    assert (0 ≤ sumZ (removelast (d' :: ds))).
    { apply sumZ_nonneg. rewrite Forall_forall in Hok |- *.
      intros x Hx. apply Hok. apply list_elem_of_In.
      apply list_elem_of_In in Hx. revert Hx. generalize (d' :: ds).
      intros l. induction l as [|y [|z l] IHl]; cbn; [done|done|].
      intros [->|Hx]; [by left|right; by apply IHl]. }
    unfold delta_ok in Hd.
    rewrite bool_decide_eq_false_2 by lia. f_equal. apply IH; [done|lia].
Qed.

(** C5 fails as stated: three increments of 60 sum to 180, but the
    third finds the progress at 120 and adds nothing. *)
Lemma IncBootProgress_drops_late_deltas :
  sumZ [60; 60; 60] = 180
  ∧ bootProgress
      (boot_run (inc_calls [(60, "a"); (60, "b"); (60, "c")]) boot0) = 120.
Proof. split; reflexivity. Qed.

(** C5, amended.  For every serialisation of [IncBootProgress] calls
    from progress 0 whose deltas are positive and at most [2^31 - 100]:
    if the deltas sum to at least 100 then [IsBooted] is true
    afterwards, and the final progress is the sum of the deltas up to
    and including the first one that takes the sum to 100 (the later
    ones add nothing); it lies between 100 and the sum of all deltas,
    and equals that sum when the deltas before the last sum to less
    than 100. *)
Theorem IncBootProgress_sum_until_booted (ds : list (Z * string)) :
  Forall (λ c, delta_ok c.1) ds →
  100 ≤ sumZ ds.*1 →
  let b := boot_run (inc_calls ds) boot0 in
  IsBooted b = true
  ∧ bootProgress b = sumZ (counted 0 ds.*1)
  ∧ 100 ≤ bootProgress b ≤ sumZ ds.*1
  ∧ (sumZ (removelast ds.*1) < 100 → bootProgress b = sumZ ds.*1).
Proof.
  intros Hok Hsum b.
  assert (Hok' : Forall delta_ok ds.*1) by (by apply Forall_fmap).
  assert (Hb : bootProgress b = sumZ (counted 0 ds.*1)).
  { subst b. rewrite inc_run_counted; [done|done| |done].
    unfold Go.is_int32, Go.int32_min, Go.int32_max. cbn. lia. }
  destruct (counted_bounds ds.*1 0 Hok') as [H1 H2]; [lia|].
  split; [|split; [done|split]].
  - unfold IsBooted, Load. apply bool_decide_eq_true_2. lia.
  - lia.
  - intros Hlast. rewrite Hb. by rewrite counted_all.
Qed.

Lemma IncBootProgress_sum_witness :
  Forall (λ c : Z * string, delta_ok c.1) [(3, "a"); (90, "b"); (7, "c")]
  ∧ 100 ≤ sumZ [3; 90; 7]
  ∧ IsBooted (boot_run (inc_calls [(3, "a"); (90, "b"); (7, "c")]) boot0) = true
  ∧ bootProgress (boot_run (inc_calls [(3, "a"); (90, "b"); (7, "c")]) boot0)
    = 100.
Proof.
  assert (Hok : Forall (λ c : Z * string, delta_ok c.1)
                  [(3, "a"); (90, "b"); (7, "c")])
    by (repeat constructor; cbn; unfold delta_ok, Go.int32_max; lia).
  assert (Hsum : 100 ≤ sumZ [3; 90; 7]) by (vm_compute; discriminate).
  destruct (IncBootProgress_sum_until_booted
              [(3, "a"); (90, "b"); (7, "c")] Hok Hsum) as (Hb & Hp & _).
  split; [exact Hok|]. split; [exact Hsum|]. split; [exact Hb|exact Hp].
Defined.

End BootProgress.

(** ** Sessions *)

(** C8.  [NeedCaptcha] is true exactly when the wrong-authorization
    counter is above 3: false at 3, true at 4. *)
Theorem NeedCaptcha_above_three (WrongAuthCount : Z) :
  (NeedCaptcha WrongAuthCount = true ↔ 3 < WrongAuthCount)
  ∧ NeedCaptcha 3 = false
  ∧ NeedCaptcha 4 = true.
Proof.
  split; [|split; reflexivity].
  unfold NeedCaptcha. apply bool_decide_eq_true.
Qed.

Section Sessions.

Import Session.

Implicit Types (m : Mem) (k : string).

Lemma new_WorkspaceSession_keeps (h : gmap addr WorkspaceSession)
    (a : addr) (w : WorkspaceSession) :
  h !! a = Some w → (new_WorkspaceSession h).2 !! a = Some w.
Proof.
  intros Ha. unfold new_WorkspaceSession. cbn.
  rewrite lookup_insert_ne; [done|].
  intros <-. apply (is_fresh (dom h)). apply elem_of_dom. by eexists.
Qed.

Lemma new_WorkspaceSession_allocated (h : gmap addr WorkspaceSession) :
  (new_WorkspaceSession h).2 !! (new_WorkspaceSession h).1
  = Some (mkWorkspaceSession "" "").
Proof. unfold new_WorkspaceSession. cbn. apply lookup_insert_eq. Qed.

(** C7.  [RemoveWorkspaceSession] removes the entry under the current
    workspace path and nothing else: the entry under every other path,
    and every stored object, is as before. *)
Theorem RemoveWorkspaceSession_only_current (WorkspaceDir : string) m :
  let m' := RemoveWorkspaceSession WorkspaceDir m in
  entry (sess m') WorkspaceDir = None
  ∧ (∀ k, k ≠ WorkspaceDir → entry (sess m') k = entry (sess m) k)
  ∧ objs m' = objs m.
Proof.
  cbn. unfold entry. cbn. destruct (Workspaces (sess m)) as [ws|]; cbn.
  - split; [apply lookup_delete_eq|]. split; [|done].
    intros k Hk. by apply lookup_delete_ne.
  - done.
Qed.

(** The scenario of the spec: one session that has touched [W1] and
    then [W2]; removing under [W2] leaves the entry of [W1]. *)
Example remove_under_W2_keeps_W1 :
  let m0 := mkMem ∅ (mkSessionData None) in
  let m1 := (GetWorkspaceSession "/W1" m0).2 in
  let m2 := (GetWorkspaceSession "/W2" m1).2 in
  let m3 := RemoveWorkspaceSession "/W2" m2 in
  entry (sess m3) "/W1" = entry (sess m1) "/W1"
  ∧ is_Some (entry (sess m3) "/W1")
  ∧ entry (sess m3) "/W2" = None
  ∧ bool_decide (entry (sess m2) "/W1" = entry (sess m2) "/W2") = false.
Proof. vm_compute. repeat split; eauto. Qed.

(** C9.  [GetWorkspaceSession] returns a pointer that is not nil and
    that the session stores under the current workspace path; an entry
    that was there is the one returned, and no object allocated before
    the call is changed.  A second call under the same path returns
    the same pointer and leaves the session and every object as the
    first call left them. *)
Theorem GetWorkspaceSession_stable (WorkspaceDir : string) m :
  let r := GetWorkspaceSession WorkspaceDir m in
  let r' := GetWorkspaceSession WorkspaceDir r.2 in
  is_Some r.1
  ∧ entry (sess r.2) WorkspaceDir = Some r.1
  ∧ (∀ a, index (Workspaces (sess m)) WorkspaceDir = Some a →
          r.1 = Some a ∧ ∀ k, entry (sess r.2) k = entry (sess m) k)
  ∧ (index (Workspaces (sess m)) WorkspaceDir = None →
       deref r.2 r.1 = Some (mkWorkspaceSession "" "")
       ∧ deref m r.1 = None)
  ∧ (∀ a w, objs m !! a = Some w → objs r.2 !! a = Some w)
  ∧ r'.1 = r.1
  ∧ sess r'.2 = sess r.2
  ∧ (∀ a w, objs r.2 !! a = Some w → objs r'.2 !! a = Some w).
Proof.
  assert (Hfirst : ∀ m0,
    let r := GetWorkspaceSession WorkspaceDir m0 in
    is_Some r.1
    ∧ entry (sess r.2) WorkspaceDir = Some r.1
    ∧ (∀ a, index (Workspaces (sess m0)) WorkspaceDir = Some a →
            r.1 = Some a ∧ sess r.2 = mkSessionData (Workspaces (sess m0)))
    ∧ (index (Workspaces (sess m0)) WorkspaceDir = None →
         deref r.2 r.1 = Some (mkWorkspaceSession "" "")
         ∧ deref m0 r.1 = None)
    ∧ (∀ a w, objs m0 !! a = Some w → objs r.2 !! a = Some w)).
  { intros [h [ows]]. unfold GetWorkspaceSession. cbn [objs sess Workspaces].
    destruct (new_WorkspaceSession h) as [a0 h1] eqn:E0.
    assert (Hk1 : ∀ a w, h !! a = Some w → h1 !! a = Some w).
    { intros a w Ha. apply new_WorkspaceSession_keeps in Ha. by rewrite E0 in Ha. }
    set (ws := match ows with Some ws => ws | None => ∅ end).
    assert (Hidx : index ows WorkspaceDir = index (Some ws) WorkspaceDir).
    { subst ws. destruct ows; [done|]. cbn. by rewrite lookup_empty. }
    rewrite Hidx.
    destruct (index (Some ws) WorkspaceDir) as [a|] eqn:Ei.
    - cbn. split; [by eexists|]. split; [|split; [|split; [done|done]]].
      + unfold entry, index in *. cbn.
        destruct (ws !! WorkspaceDir) as [[a'|]|] eqn:E; by simplify_eq/=.
      + intros a' Ha'. split; [done|].
        subst ws. destruct ows as [ws|]; [done|].
        cbn in Ei. by rewrite lookup_empty in Ei.
    - destruct (new_WorkspaceSession h1) as [a1 h2] eqn:E1. cbn.
      pose proof (new_WorkspaceSession_allocated h1) as Ha1.
      rewrite E1 in Ha1. cbn in Ha1.
      repeat split; eauto; try done.
      + unfold entry. cbn. apply lookup_insert_eq.
      + destruct (h !! a1) as [w|] eqn:Eh; [|done]. exfalso.
        apply Hk1 in Eh.
        assert (a1 = fresh (dom h1)) as Hf
          by (unfold new_WorkspaceSession in E1; congruence).
        apply (is_fresh (dom h1)). rewrite <- Hf. apply elem_of_dom. by eexists.
      + intros a w Ha. apply Hk1 in Ha.
        apply new_WorkspaceSession_keeps in Ha. by rewrite E1 in Ha. }
  intros r r'. subst r'.
  pose proof (Hfirst m) as H1. pose proof (Hfirst r.2) as H2.
  cbv zeta in H1, H2. fold r in H1. clearbody r. clear Hfirst.
  destruct r as [p m1]. cbn [fst snd] in *.
  destruct H1 as (Hs & He & Hold & Hnew & Hkeep).
  destruct H2 as (_ & _ & Hold' & _ & Hkeep').
  destruct Hs as [a ->].
  assert (Hi : index (Workspaces (sess m1)) WorkspaceDir = Some a).
  { revert He. unfold entry, index.
    destruct (Workspaces (sess m1)) as [ws|]; [|done]. by intros ->. }
  destruct (Hold' a Hi) as [Hr' Hsess'].
  split; [by eexists|]. split; [done|]. split.
  { intros a' Ha'. destruct (Hold a' Ha') as [? Hsess]. split; [done|].
    intros k. by rewrite Hsess. }
  split; [done|]. split; [done|]. split; [done|]. split; [|done].
  rewrite Hsess'. by destruct (sess m1).
Qed.

End Sessions.

(** ** Rules for [wp] *)

Section WeakestPre.

Context {A B : Type}.
Implicit Types (Q : A → St → Prop) (E : ExitCode → St → Prop) (s : St).

Lemma wp_bind (m : Proc A) (k : A → Proc B) (Q' : B → St → Prop) E s :
  wp (m ≫= k) Q' E s = wp m (λ a s', wp (k a) Q' E s') E s.
Proof. unfold wp, mbind, Proc_bind. by destruct (m s). Qed.

Lemma wp_ret (a : A) Q E s : wp (mret a) Q E s = Q a s.
Proof. done. Qed.

Lemma wp_reads (f : St → A) Q E s : wp (reads f) Q E s = Q (f s) s.
Proof. done. Qed.

Lemma wp_exit (c : ExitCode) Q E s : wp (os_Exit c) Q E s = E c s.
Proof. done. Qed.

Lemma wp_mono (m : Proc A) Q (Q' : A → St → Prop) E (E' : ExitCode → St → Prop) s :
  wp m Q E s →
  (∀ a s', Q a s' → Q' a s') → (∀ c s', E c s' → E' c s') →
  wp m Q' E' s.
Proof. unfold wp. destruct (m s); eauto. Qed.


End WeakestPre.

Lemma wp_writes (f : St → St) (Q : unit → St → Prop) E s :
  wp (writes f) Q E s = Q () (f s).
Proof. done. Qed.

Lemma wp_emit (e : Event) (Q : unit → St → Prop) E s :
  wp (emit e) Q E s = Q () (with_trace (λ t, t ++ [e]) s).
Proof. done. Qed.

Lemma wp_skip (Q : unit → St → Prop) E s : wp skip Q E s = Q () s.
Proof. done. Qed.

Ltac wp_run :=
  repeat first
    [ rewrite wp_bind | rewrite wp_reads | rewrite wp_writes
    | rewrite wp_emit | rewrite wp_exit | rewrite wp_skip | rewrite wp_ret ].

(** ** The registry's list operations *)

Section Dedup.

Implicit Types (l seen : list string) (x : string).

Lemma elem_of_dedup_seen l : ∀ seen x,
  x ∈ dedup_seen seen l ↔ x ∈ l ∧ x ∉ seen.
Proof.
  induction l as [|y l IH]; intros seen x; cbn.
  { rewrite elem_of_nil. tauto. }
  case_bool_decide as Hy.
  - rewrite IH, elem_of_cons. split; [tauto|].
    intros [[->|Hx] Hn]; [done|tauto].
  - rewrite !elem_of_cons, IH, not_elem_of_cons. split.
    + intros [->|(Hx & Hne & Hn)]; tauto.
    + intros [[->|Hx] Hn]; [by left|].
      destruct (decide (x = y)) as [->|Hne]; [by left|right; tauto].
Qed.


Lemma NoDup_dedup_seen l : ∀ seen, NoDup (dedup_seen seen l).
Proof.
  induction l as [|y l IH]; intros seen; cbn; [constructor|].
  case_bool_decide as Hy; [apply IH|].
  constructor; [|apply IH].
  rewrite elem_of_dedup_seen, not_elem_of_cons. tauto.
Qed.


Lemma dedup_seen_NoDup l : ∀ seen,
  NoDup l → (∀ x, x ∈ l → x ∉ seen) → dedup_seen seen l = l.
Proof.
  induction l as [|y l IH]; intros seen Hnd Hs; [done|]. cbn.
  apply NoDup_cons in Hnd as [Hy Hnd].
  rewrite bool_decide_eq_false_2 by (apply Hs; by left).
  f_equal. apply IH; [done|]. intros x Hx.
  rewrite not_elem_of_cons. split; [by intros ->|].
  apply Hs. by right.
Qed.



Lemma RemoveDuplicatedElem_idemp l :
  RemoveDuplicatedElem (RemoveDuplicatedElem l) = RemoveDuplicatedElem l.
Proof.
  unfold RemoveDuplicatedElem at 1. apply dedup_seen_NoDup.
  - apply NoDup_dedup_seen.
  - intros x _. apply not_elem_of_nil.
Qed.







End Dedup.

(** ** Paths *)

Section Paths.

Lemma append_cons (c : ascii) (s t : string) :
  String c s +:+ t = String c (s +:+ t).
Proof. reflexivity. Qed.

Lemma append_assoc (s t u : string) : (s +:+ t) +:+ u = s +:+ (t +:+ u).
Proof.
  induction s as [|c s IH]; [reflexivity|].
  rewrite !append_cons. by rewrite IH.
Qed.

(** A path is not below one of its own extensions. *)
Lemma under_extension (w : string) (c : ascii) (x : string) :
  Go.under (w +:+ String c x) w = false.
Proof.
  unfold Go.under. apply orb_false_iff. split.
  - apply bool_decide_eq_false_2. induction w as [|a w IH]; [done|].
    rewrite append_cons. intros [= H]. by apply IH.
  - rewrite append_assoc. induction w as [|a w IH]; [done|].
    rewrite append_cons. cbn [String.prefix].
    destruct (ascii_dec a a); [apply IH|done].
Qed.

Lemma under_Join2 (w a b : string) :
  Go.under (Go.Join (Go.Join w a) b) w = false.
Proof.
  unfold Go.Join. rewrite !append_assoc.
  change ("/" +:+ ?x) with (String "/" x). apply under_extension.
Qed.

End Paths.

(** ** What the primitives do *)

Section Primitives.

Implicit Types (s : St) (p : string).

Lemma wp_MkdirAll p (Q : option Go.error → St → Prop) E s :
  wp (MkdirAll p) Q E s
  = match mkdir_fails (oracle s) !! p with
    | Some e => Q (Some e) (with_trace (λ t, t ++ [SysMkdirAll p]) s)
    | None =>
        Q None
          (with_fs (set_dirs (λ d, d ∪ {[p]} ∪ list_to_set (Go.ancestors p)))
             (with_trace (λ t, t ++ [SysMkdirAll p]) s))
    end.
Proof.
  unfold MkdirAll. wp_run. cbn [oracle with_trace].
  destruct (mkdir_fails (oracle s) !! p); by wp_run.
Qed.

Lemma wp_mkdir_or_exit p format args (Q : unit → St → Prop) E s :
  (∀ s', frame s s' → layout s' = layout s →
         dirs (fs s) ⊆ dirs (fs s') →
         (mkdir_fails (oracle s) !! p = None → p ∈ dirs (fs s')) →
         Q () s') →
  (∀ s', frame s s' → is_Some (mkdir_fails (oracle s) !! p) →
         E ExitCodeInitWorkspaceErr s') →
  wp (mkdir_or_exit p format args) Q E s.
Proof.
  intros HQ HE. unfold mkdir_or_exit. rewrite wp_bind, wp_MkdirAll.
  destruct (mkdir_fails (oracle s) !! p) as [e|] eqn:Ep.
  - destruct (Go.IsExist e); cbn [negb]; wp_run.
    + apply HQ; done.
    + apply HE; done.
  - wp_run. apply HQ; try done; cbn; set_solver.
Qed.

End Primitives.

(** ** Workspace resolution, block by block *)

Section Resolver.

Implicit Types (s : St) (Q : unit → St → Prop) (E : ExitCode → St → Prop).

Lemma frame_refl s : frame s s.
Proof. by unfold frame. Qed.

Lemma frame_trans s1 s2 s3 : frame s1 s2 → frame s2 s3 → frame s1 s3.
Proof. unfold frame. intros (?&?&?) (?&?&?). repeat split; congruence. Qed.

Lemma mkdir_fails_nonempty s p :
  is_Some (mkdir_fails (oracle s) !! p) → mkdir_fails (oracle s) ≠ ∅.
Proof. intros [e He] H0. rewrite H0 in He. by rewrite lookup_empty in He. Qed.

Lemma exists_at_registry s :
  is_Some (registry (fs s)) → exists_at (workspaceConf (oracle s)) s = true.
Proof.
  intros Hr. unfold exists_at.
  rewrite (bool_decide_eq_true_2 (workspaceConf (oracle s) = _)) by done.
  rewrite (bool_decide_eq_true_2 (is_Some _)) by done.
  by rewrite orb_true_r.
Qed.

Lemma exists_at_no_registry s :
  exists_at (workspaceConf (oracle s)) s = false → registry (fs s) = None.
Proof.
  unfold exists_at. intros Eb.
  apply orb_false_iff in Eb as [_ Eb].
  rewrite bool_decide_eq_true_2 in Eb by done. cbn in Eb.
  apply bool_decide_eq_false in Eb.
  destruct (registry (fs s)); [|done]. exfalso. apply Eb. by eexists.
Qed.

Lemma ensureUserHomeConfDir_found s :
  is_Some (registry (fs s)) → ensureUserHomeConfDir s = Ret () s.
Proof.
  intros Hr. unfold ensureUserHomeConfDir, IsExist.
  unfold mbind, Proc_bind, reads.
  by rewrite exists_at_registry.
Qed.

Lemma wp_ensureUserHomeConfDir Q E s :
  (∀ s', frame s s' → layout s' = layout s →
         dirs (fs s') = dirs_at_selection s → Q () s') →
  (∀ s', frame s s' → mkdir_fails (oracle s) ≠ ∅ →
         E ExitCodeInitWorkspaceErr s') →
  wp ensureUserHomeConfDir Q E s.
Proof.
  intros HQ HE.
  assert (Hraw : wp ensureUserHomeConfDir
            (λ _ s', frame s s' ∧ layout s' = layout s)
            (λ c s', c = ExitCodeInitWorkspaceErr ∧ frame s s'
                     ∧ mkdir_fails (oracle s) ≠ ∅) s).
  { unfold ensureUserHomeConfDir. wp_run.
    unfold IsExist. wp_run.
    match goal with |- context [negb ?b] => destruct b end; cbn [negb];
      [wp_run; split; [apply frame_refl|done]|].
    apply wp_mkdir_or_exit.
    - intros s' Hf Hl _ _. done.
    - intros s' Hf Hm. split; [done|]. split; [done|].
      by eapply mkdir_fails_nonempty. }
  unfold wp in Hraw |- *. unfold dirs_at_selection in HQ.
  destruct (ensureUserHomeConfDir s) as [[] s'|c s'].
  - destruct Hraw as [Hf Hl]. by apply HQ.
  - destruct Hraw as (-> & Hf & Hm). by apply HE.
Qed.

Lemma defaultWorkspaceDir_eq s :
  defaultWorkspaceDir s = Ret (default_dir s) s.
Proof.
  unfold default_dir, defaultWorkspaceDir, Getenv.
  unfold mbind, Proc_bind, mret, Proc_ret, reads. cbn.
  destruct (IsWindows (oracle s)); [|done]. cbn.
  by case_bool_decide.
Qed.

Lemma default_dir_frame s s' : frame s s' → default_dir s' = default_dir s.
Proof.
  intros (Ho & _ & He). unfold default_dir, defaultWorkspaceDir, Getenv.
  unfold mbind, Proc_bind, mret, Proc_ret, reads. cbn. rewrite Ho.
  destruct (IsWindows (oracle s)); [|done]. cbn. rewrite He.
  by case_bool_decide.
Qed.

Lemma ReadWorkspacePaths_spec s :
  ∃ err s', ReadWorkspacePaths s = Ret (remembered s, err) s'
            ∧ frame s s' ∧ layout s' = layout s ∧ dirs (fs s') = dirs (fs s).
Proof.
  unfold remembered, ReadWorkspacePaths, ReadFile_conf, UnmarshalJSON.
  unfold mbind, Proc_bind, mret, Proc_ret, reads, emit, writes. cbn.
  destruct (registry (fs s)) as [[|partial|paths]|]; cbn;
    eexists _, _; (split; [reflexivity|]); by unfold frame.
Qed.

Lemma remembered_no_registry s : registry (fs s) = None → remembered s = [].
Proof.
  intros Hr. unfold remembered, ReadWorkspacePaths, ReadFile_conf, UnmarshalJSON.
  unfold mbind, Proc_bind, mret, Proc_ret, reads, emit, writes. cbn.
  by rewrite Hr.
Qed.


Lemma wp_if {A} (b : bool) (m1 m2 : Proc A) (Q : A → St → Prop) E s :
  wp (if b then m1 else m2) Q E s = if b then wp m1 Q E s else wp m2 Q E s.
Proof. by destruct b. Qed.

Lemma wp_set_WorkspaceDir d Q E s :
  (∀ s', frame s s' → fs s' = fs s → WorkspaceDir (layout s') = d → Q () s') →
  wp (set_WorkspaceDir d) Q E s.
Proof.
  intros HQ. unfold set_WorkspaceDir. rewrite wp_writes.
  apply HQ; [by unfold frame|done|done].
Qed.

Lemma wp_load_registry dflt (Q : list string → St → Prop) E s :
  (∀ s', frame s s' → dirs (fs s') = dirs (fs s) →
         WorkspaceDir (layout s') = resolve_target "" dflt (remembered s) →
         Q (remembered s) s') →
  wp (if negb (exists_at (workspaceConf (oracle s)) s)
      then _ ← set_WorkspaceDir dflt; mret []
      else
        '(workspacePaths, _) ← ReadWorkspacePaths;
        _ ← set_WorkspaceDir (default dflt (last workspacePaths));
        mret workspacePaths) Q E s.
Proof.
  intros HQ.
  destruct (ReadWorkspacePaths_spec s) as (err & s1 & Hread & Hf1 & Hl1 & Hd1).
  destruct (exists_at _ s) eqn:Eb; cbn [negb].
  - rewrite wp_bind. unfold wp at 1. rewrite Hread.
    rewrite wp_bind. apply wp_set_WorkspaceDir. intros s2 Hf2 Hfs2 Hw2.
    rewrite wp_ret. apply HQ.
    + by eapply frame_trans.
    + by rewrite Hfs2.
    + rewrite Hw2. unfold resolve_target. cbn. by destruct (last (remembered s)).
  - apply exists_at_no_registry in Eb as Hnone.
    rewrite wp_bind. apply wp_set_WorkspaceDir. intros s2 Hf2 Hfs2 Hw2.
    rewrite wp_ret. rewrite (remembered_no_registry s Hnone) in HQ.
    apply HQ; [done|by rewrite Hfs2|done].
Qed.

Lemma wp_selectWorkspaceDir workspaceArg dflt
    (Q : list string → St → Prop) E s :
  let known := remembered s in
  let target := resolve_target workspaceArg dflt known in
  let sel := resolve_selected target dflt (dirs (fs s)) in
  (∀ s', frame s s' → WorkspaceDir (layout s') = sel →
         dirs (fs s) ⊆ dirs (fs s') →
         (mkdir_fails (oracle s) !! dflt = None → sel ∈ dirs (fs s')) →
         Q (known ++ [sel]) s') →
  (∀ s', frame s s' → mkdir_fails (oracle s) ≠ ∅ →
         E ExitCodeInitWorkspaceErr s') →
  wp (selectWorkspaceDir workspaceArg dflt) Q E s.
Proof.
  intros known target sel HQ HE. unfold selectWorkspaceDir, IsExist.
  rewrite wp_bind, wp_reads, wp_bind, wp_reads, wp_bind.
  apply wp_load_registry. intros s1 Hf1 Hd1 Hw1. fold known in Hw1 |- *.
  (* the override *)
  rewrite wp_bind.
  assert (Hov : wp (if bool_decide (workspaceArg ≠ "")
                    then set_WorkspaceDir workspaceArg else skip)
                  (λ _ s2, frame s s2 ∧ dirs (fs s2) = dirs (fs s)
                           ∧ WorkspaceDir (layout s2) = target)
                  (λ _ _, False) s1).
  { unfold resolve_target in Hw1.
    rewrite bool_decide_eq_false_2 in Hw1 by (intros H; by apply H).
    subst target. unfold resolve_target.
    case_bool_decide as Harg.
    - apply wp_set_WorkspaceDir. intros s2 Hf2 Hfs2 Hw2.
      split; [by eapply frame_trans|]. split; [by rewrite Hfs2|done].
    - by rewrite wp_skip. }
  eapply wp_mono; [exact Hov| |done].
  clear Hov s1 Hf1 Hd1 Hw1. intros [] s2 (Hf2 & Hd2 & Hw2). cbv beta.
  unfold IsDir. wp_run. rewrite Hw2, Hd2.
  assert (Hsel : sel = if bool_decide (target ∈ dirs (fs s)) then target else dflt)
    by done.
  destruct (bool_decide (target ∈ dirs (fs s))) eqn:Et; cbn [negb].
  - wp_run. rewrite Hw2, <- Hsel. apply HQ; [done|by rewrite Hsel|by rewrite Hd2|].
    intros _. rewrite Hsel, Hd2. by apply bool_decide_eq_true in Et.
  - wp_run. apply wp_mkdir_or_exit.
    + intros s3 Hf3 Hl3 Hd3 Hin3. cbv beta.
      apply wp_set_WorkspaceDir. intros s4 Hf4 Hfs4 Hw4.
      wp_run. rewrite Hw4, <- Hsel.
      assert (Ho3 : oracle (with_trace
                (λ t, t ++ [LogWarnf
                   "use the default workspace [%s] since the specified workspace [%s] is not a dir"
                   [dflt; target]]) s2) = oracle s) by apply Hf2.
      apply HQ.
      * eapply frame_trans; [|exact Hf4].
        eapply frame_trans; [|exact Hf3]. done.
      * by rewrite Hsel.
      * rewrite Hfs4. rewrite <- Hd2. exact Hd3.
      * intros Hm. rewrite Hsel, Hfs4. apply Hin3. by rewrite Ho3.
    + intros s3 Hf3 Hm. apply HE.
      * eapply frame_trans; [|exact Hf3]. done.
      * destruct Hf2 as (Ho2 & _). cbn [oracle with_trace] in Hm.
        rewrite Ho2 in Hm. by eapply mkdir_fails_nonempty.
Qed.

Lemma wp_WriteWorkspacePaths l (Q : option Go.error → St → Prop) E s :
  (marshal_fails (oracle s) = false → write_fails (oracle s) = false →
   ∀ s', oracle s' = oracle s →
         registry (fs s') = Some (Registry (RemoveDuplicatedElem l)) →
         layout s' = layout s → dirs (fs s') = dirs (fs s) →
         Q None s') →
  (marshal_fails (oracle s) = true ∨ write_fails (oracle s) = true →
   ∀ e s', frame s s' → Q (Some e) s') →
  wp (WriteWorkspacePaths l) Q E s.
Proof.
  intros HQ HE. unfold WriteWorkspacePaths, MarshalJSON, WriteFile. wp_run.
  destruct (marshal_fails (oracle s)) eqn:Em.
  { wp_run. apply HE; [by left|by unfold frame]. }
  wp_run. cbn [oracle with_trace].
  destruct (write_fails (oracle s)) eqn:Ew.
  { wp_run. apply HE; [by right|by unfold frame]. }
  wp_run. by apply HQ.
Qed.

Lemma wp_persistWorkspacePaths l Q E s :
  (marshal_fails (oracle s) = false → write_fails (oracle s) = false →
   ∀ s', oracle s' = oracle s →
         registry (fs s') = Some (Registry (RemoveDuplicatedElem l)) →
         layout s' = layout s → dirs (fs s') = dirs (fs s) →
         Q () s') →
  (marshal_fails (oracle s) = true ∨ write_fails (oracle s) = true →
   ∀ s', frame s s' →
         last (trace s')
         = Some (LogErrorf "write workspace conf [%s] failed: %s"
                   [workspaceConf (oracle s)]) →
         E ExitCodeInitWorkspaceErr s') →
  wp (persistWorkspacePaths l) Q E s.
Proof.
  intros HQ HE. unfold persistWorkspacePaths. rewrite wp_bind, wp_reads, wp_bind.
  apply wp_WriteWorkspacePaths.
  - intros Hm Hw s' Ho Hr Hl Hd. rewrite wp_skip. by apply HQ.
  - intros Hbad e s' Hf. wp_run. apply HE; [done| |].
    + eapply frame_trans; [exact Hf|]. by unfold frame.
    + cbn. apply last_snoc.
Qed.

Lemma RemoveAll_keeps_workspace (w a b : string) (d : gset string) :
  w ∈ d → w ∈ filter (λ q, ¬ Go.under (Go.Join (Go.Join w a) b) q) d.
Proof.
  intros Hw. apply elem_of_filter. split; [|done].
  rewrite under_Join2. by intros [].
Qed.

Lemma wp_deriveLayout Q E s :
  (∀ s', oracle s' = oracle s → registry (fs s') = registry (fs s) →
         WorkspaceDir (layout s') = WorkspaceDir (layout s) →
         (WorkspaceDir (layout s) ∈ dirs (fs s) →
          WorkspaceDir (layout s) ∈ dirs (fs s')) →
         Q () s') →
  (∀ s', oracle s' = oracle s → registry (fs s') = registry (fs s) →
         mkdir_fails (oracle s) ≠ ∅ → E ExitCodeInitWorkspaceErr s') →
  wp deriveLayout Q E s.
Proof.
  intros HQ HE. unfold deriveLayout, RemoveAll, Setenv.
  set (w := WorkspaceDir (layout s)) in *.
  rewrite wp_bind, wp_reads. fold w. cbv zeta.
  rewrite wp_bind, wp_writes, wp_bind, wp_bind, wp_emit, wp_writes, wp_bind.
  rewrite wp_MkdirAll. cbn [oracle with_fs with_trace with_layout].
  destruct (mkdir_fails (oracle s) !! _) as [e|] eqn:Em.
  - wp_run. apply HE; [done|done|]. eapply mkdir_fails_nonempty. by eexists.
  - wp_run. apply HQ; [done|done|done|]. cbn. intros Hw.
    apply RemoveAll_keeps_workspace.
    apply elem_of_union_l, elem_of_union_l.
    by apply RemoveAll_keeps_workspace.
Qed.

Lemma remembered_ext s s' :
  registry (fs s') = registry (fs s) → dirs (fs s') = dirs (fs s) →
  remembered s' = remembered s.
Proof.
  intros Hr Hd. unfold remembered, ReadWorkspacePaths, ReadFile_conf, UnmarshalJSON.
  unfold mbind, Proc_bind, mret, Proc_ret, reads, emit, writes. cbn.
  rewrite Hr. destruct (registry (fs s)) as [[|partial|paths]|]; cbn; try done.
  by rewrite Hd.
Qed.

(** With a registry file in place nothing is created before the
    target is checked. *)
Lemma dirs_at_selection_found s :
  is_Some (registry (fs s)) → dirs_at_selection s = dirs (fs s).
Proof.
  intros Hr. unfold dirs_at_selection.
  by rewrite ensureUserHomeConfDir_found.
Qed.

Lemma remembered_after_ensure s s' :
  frame s s' → dirs (fs s') = dirs_at_selection s →
  remembered s' = remembered s.
Proof.
  intros (Ho & Hr & He) Hd.
  destruct (registry (fs s)) as [c|] eqn:Ereg.
  - apply remembered_ext; [congruence|]. rewrite Hd.
    apply dirs_at_selection_found. rewrite Ereg. by eexists.
  - rewrite !remembered_no_registry; congruence.
Qed.

(** The resolver as a whole: what holds when it returns, and what
    holds when it exits. *)
Lemma wp_initWorkspaceDir workspaceArg Q E s :
  let dflt := default_dir s in
  let known := remembered s in
  let target := resolve_target workspaceArg dflt known in
  let sel := resolve_selected target dflt (dirs_at_selection s) in
  (marshal_fails (oracle s) = false → write_fails (oracle s) = false →
   ∀ s', oracle s' = oracle s →
         registry (fs s')
         = Some (Registry (RemoveDuplicatedElem (known ++ [sel]))) →
         WorkspaceDir (layout s') = sel →
         (mkdir_fails (oracle s) !! dflt = None → sel ∈ dirs (fs s')) →
         Q () s') →
  (∀ s', oracle s' = oracle s →
         (marshal_fails (oracle s) = true ∨ write_fails (oracle s) = true →
          registry (fs s') = registry (fs s)) →
         (mkdir_fails (oracle s) ≠ ∅ ∨ marshal_fails (oracle s) = true
          ∨ write_fails (oracle s) = true) →
         (mkdir_fails (oracle s) = ∅ →
          last (trace s')
          = Some (LogErrorf "write workspace conf [%s] failed: %s"
                    [workspaceConf (oracle s)])) →
         E ExitCodeInitWorkspaceErr s') →
  wp (initWorkspaceDir workspaceArg) Q E s.
Proof.
  intros dflt known target sel HQ HE. unfold initWorkspaceDir.
  rewrite wp_bind. apply wp_ensureUserHomeConfDir.
  2:{ intros s' Hf Hm. apply HE; [apply Hf| |by left|done]. intros _. apply Hf. }
  intros s1 Hf1 Hl1 Hd1.
  rewrite wp_bind. unfold wp at 1. rewrite defaultWorkspaceDir_eq.
  rewrite (default_dir_frame s s1 Hf1). fold dflt.
  rewrite wp_bind. apply wp_selectWorkspaceDir.
  2:{ intros s' Hf Hm. pose proof (frame_trans _ _ _ Hf1 Hf) as Hf'.
      destruct Hf1 as (Ho1 & _). rewrite Ho1 in Hm.
      apply HE; [apply Hf'| |by left|done]. intros _. apply Hf'. }
  rewrite (remembered_after_ensure s s1 Hf1 Hd1), Hd1.
  fold known target sel.
  intros s2 Hf2 Hw2 Hsub2 Hin2.
  pose proof (frame_trans _ _ _ Hf1 Hf2) as Hf12.
  destruct Hf1 as (Ho1 & _). destruct Hf12 as (Ho2 & Hr2 & _).
  rewrite wp_bind. apply wp_persistWorkspacePaths; rewrite Ho2.
  2:{ intros Hbad s' (Ho' & Hr' & _) Hlast.
      apply HE; [congruence| |tauto|by intros _]. intros _. congruence. }
  intros Hm Hw s3 Ho3 Hr3 Hl3 Hd3.
  apply wp_deriveLayout.
  - intros s4 Ho4 Hr4 Hw4 Hin4. apply HQ; [done|done|congruence|congruence| |].
    + rewrite Hw4, Hl3. done.
    + intros Hmk. rewrite Hl3, Hw2, Hd3 in Hin4. apply Hin4, Hin2.
      by rewrite Ho1.
  - intros s4 Ho4 Hr4 Hmk. apply HE; [congruence| | |].
    + intros [Hbad|Hbad]; congruence.
    + left. congruence.
    + intros H0. exfalso. apply Hmk. congruence.
Qed.


(** C2 fails as stated: where the registry file cannot be written the
    resolver does not go on, it exits. *)
Lemma registry_write_error_exits :
  write_fails desktop_readonly_conf = true
  ∧ exited (initWorkspaceDir "" (init_St desktop_readonly_conf fresh_home))
    = Some ExitCodeInitWorkspaceErr.
Proof. split; reflexivity. Qed.

(** C2, amended.  If persisting the path registry fails during
    workspace resolution ([WriteWorkspacePaths] returns an error, from
    encoding or from writing), the resolver does not return: the
    process exits with [ExitCodeInitWorkspaceErr] and the registry file
    is left as it was; unless a directory creation failed first, the
    last thing the process did was to log the write failure. *)
Theorem registry_write_error_is_fatal (workspaceArg : string) s :
  marshal_fails (oracle s) = true ∨ write_fails (oracle s) = true →
  let r := initWorkspaceDir workspaceArg s in
  exited r = Some ExitCodeInitWorkspaceErr
  ∧ registry (fs (final r)) = registry (fs s)
  ∧ (mkdir_fails (oracle s) = ∅ →
     last (trace (final r))
     = Some (LogErrorf "write workspace conf [%s] failed: %s"
               [workspaceConf (oracle s)])).
Proof.
  intros Hbad r.
  assert (H : wp (initWorkspaceDir workspaceArg)
            (λ _ _, False)
            (λ c s', c = ExitCodeInitWorkspaceErr
                     ∧ registry (fs s') = registry (fs s)
                     ∧ (mkdir_fails (oracle s) = ∅ →
                        last (trace s')
                        = Some (LogErrorf "write workspace conf [%s] failed: %s"
                                  [workspaceConf (oracle s)]))) s).
  { apply wp_initWorkspaceDir.
    - intros Hm Hw. destruct Hbad; congruence.
    - intros s' Ho Hr _ Hlast. split; [done|]. split; [by apply Hr|done]. }
  unfold wp in H. subst r.
  destruct (initWorkspaceDir workspaceArg s) as [a s'|c s']; [done|].
  destruct H as (-> & Hr & Hl). done.
Qed.

Lemma registry_write_error_witness :
  exited (initWorkspaceDir "/ws/A"
            (init_St desktop_readonly_conf (home_with ["/ws/B"])))
  = Some ExitCodeInitWorkspaceErr.
Proof.
  exact (proj1 (registry_write_error_is_fatal "/ws/A"
                  (init_St desktop_readonly_conf (home_with ["/ws/B"]))
                  (or_intror eq_refl))).
Defined.













End Resolver.

(** ** The workspace lock *)

Section Lock.

Implicit Types (s : St) (f : Flock).

Ltac run_proc :=
  unfold UnlockWorkspace, Unlock, Remove;
  unfold mbind, Proc_bind, mret, Proc_ret, reads, writes, emit, skip;
  cbn.

(** C10.  [UnlockWorkspace] does nothing at all when no lock handle
    was ever set.  When releasing a held lock fails it logs that and
    returns: the files are as before and no removal of the marker was
    attempted.  A file that is gone after the call is the marker of
    the current workspace, and a held lock was released before it was
    removed. *)
Theorem UnlockWorkspace_guarded s :
  (WorkspaceLock s = None → UnlockWorkspace s = Ret () s)
  ∧ (∀ f, WorkspaceLock s = Some f → flock_l f = true →
          funlock_fails (oracle s) = true →
          ∃ s', UnlockWorkspace s = Ret () s'
                ∧ fs s' = fs s
                ∧ WorkspaceLock s' = Some f
                ∧ trace s'
                  = trace s
                    ++ [SysFunlock (flock_path f);
                        LogErrorf "unlock workspace [%s] failed: %s"
                          [WorkspaceDir (layout s)]])
  ∧ (∀ p, p ∈ files (fs s) →
          p ∉ files (fs (final (UnlockWorkspace s))) →
          ∃ f, WorkspaceLock s = Some f
               ∧ p = Go.Join (WorkspaceDir (layout s)) ".lock"
               ∧ (flock_l f = true →
                  funlock_fails (oracle s) = false
                  ∧ flock_path f ∉ flocked (fs (final (UnlockWorkspace s))))).
Proof.
  split; [|split].
  - intros Hl. run_proc. by rewrite Hl.
  - intros [path l] Hl Hheld Hbad. cbn in Hheld. subst l.
    run_proc. rewrite Hl. cbn. rewrite Hbad. cbn.
    eexists. split; [reflexivity|]. cbn. split; [done|]. split; [done|].
    by rewrite <- app_assoc.
  - intros p Hp. run_proc.
    destruct (WorkspaceLock s) as [[path l]|] eqn:Hl; cbn; [|done].
    set (marker := Go.Join (WorkspaceDir (layout s)) ".lock").
    assert (Hgone : ∀ (F : gset string),
              p ∈ F → p ∉ F ∖ {[marker]} → p = marker).
    { intros F HF Hn. destruct (decide (p = marker)) as [|Hne]; [done|].
      exfalso. apply Hn. apply elem_of_difference. split; [done|].
      by apply not_elem_of_singleton. }
    destruct l; cbn.
    + destruct (funlock_fails (oracle s)) eqn:Hbad; cbn; [done|].
      destruct (remove_fails (oracle s) !! marker); cbn; [done|].
      case_bool_decide; cbn; [|done].
      intros Hn. eexists. split; [done|]. split; [by eapply Hgone|].
      intros _. split; [done|].
      apply not_elem_of_difference. right. by apply elem_of_singleton.
    + destruct (remove_fails (oracle s) !! marker); cbn; [done|].
      case_bool_decide; cbn; [|done].
      intros Hn. eexists. split; [done|]. split; [by eapply Hgone|]. done.
Qed.

(** A boot on a desktop followed by an unlock that fails: the marker
    stays. *)
Example failed_unlock_keeps_marker :
  let s := final (Boot no_args (init_St desktop_stuck_lock fresh_home)) in
  bool_decide ("/home/u/SiYuan/.lock" ∈ files (fs s)) = true
  ∧ bool_decide ("/home/u/SiYuan/.lock"
                 ∈ files (fs (final (UnlockWorkspace s)))) = true
  ∧ last (trace (final (UnlockWorkspace s)))
    = Some (LogErrorf "unlock workspace [%s] failed: %s" ["/home/u/SiYuan"]).
Proof. repeat split; vm_compute; reflexivity. Qed.

End Lock.

(** ** The access authorization gate *)

Section Gate.

Implicit Types (s : St).

Ltac run_gate :=
  unfold checkAccessAuthCode, initEnvVars, Getenv;
  unfold mbind, Proc_bind, mret, Proc_ret, reads, writes, emit, skip, os_Exit;
  cbn.

(** Whatever [strconv.ParseBool] rejects switches the bypass on. *)
Lemma initEnvVars_parse_error s (e : Go.error) :
  (Go.ParseBool
     (default "" (environ (fs s) !! "SIYUAN_ACCESS_AUTH_CODE_BYPASS"))).2
  = Some e →
  envvars (final (initEnvVars s)) = mkEnvVars (in_docker (oracle s)) true.
Proof.
  intros He. run_gate.
  destruct (Go.ParseBool _) as [b [e'|]]; cbn in *; [done|discriminate].
Qed.

Lemma initEnvVars_parse_error_witness :
  envvars (final (initEnvVars (init_St docker fresh_home)))
  = mkEnvVars true true.
Proof.
  exact (initEnvVars_parse_error (init_St docker fresh_home)
           Go.ErrSyntax eq_refl).
Defined.

(** The gate itself interrupts the boot exactly when the bypass is off. *)
Lemma checkAccessAuthCode_outcome s :
  RunInContainer (envvars s) = true →
  AccessAuthCode (settings s) = "" →
  exited (checkAccessAuthCode s)
  = if SiyuanAccessAuthCodeBypass (envvars s) then None else Some ExitCode1.
Proof.
  intros Hc Ha. run_gate. rewrite Hc. cbn. rewrite Ha.
  rewrite bool_decide_eq_true_2 by done. cbn.
  by destruct (SiyuanAccessAuthCodeBypass (envvars s)).
Qed.

Lemma checkAccessAuthCode_outcome_witness :
  exited (checkAccessAuthCode
            (with_envvars (mkEnvVars true false) (init_St docker fresh_home)))
  = Some ExitCode1.
Proof.
  exact (checkAccessAuthCode_outcome
           (with_envvars (mkEnvVars true false) (init_St docker fresh_home))
           eq_refl eq_refl).
Defined.

(** C1, at the failing input: in a container, without an access auth
    code, and with [SIYUAN_ACCESS_AUTH_CODE_BYPASS] unset or set to
    something that is no boolean, [Boot] does not exit; it runs to its
    end with the bypass switched on.  Only a value that parses as
    false interrupts the boot. *)
Theorem Boot_in_container_without_code_proceeds :
  let bypass_env v :=
    set_environ (insert "SIYUAN_ACCESS_AUTH_CODE_BYPASS" v) fresh_home in
  let unset := Boot no_args (init_St docker fresh_home) in
  let garbled := Boot no_args (init_St docker (bypass_env "yes")) in
  let off := Boot no_args (init_St docker (bypass_env "false")) in
  (exited unset = None
   ∧ envvars (final unset) = mkEnvVars true true
   ∧ AccessAuthCode (settings (final unset)) = ""
   ∧ IsBooted (boot (final unset)) = false)
  ∧ (exited garbled = None
     ∧ envvars (final garbled) = mkEnvVars true true
     ∧ AccessAuthCode (settings (final garbled)) = "")
  ∧ exited off = Some ExitCode1.
Proof. repeat split; vm_compute; reflexivity. Qed.

End Gate.
